(** * The evdev driver of beep (beep-driver-evdev.c)

    A shallow embedding of the Linux evdev backend of beep: device
    location ([open_checked_device], [driver_detect]), protocol
    detection (the [EVIOCGBIT] probe inside [driver_detect]), tone
    emission ([driver_begin_tone], [driver_end_tone]) and release
    ([driver_fini]).

    The C code talks to the kernel through [open], [ioctl], [write] and
    [close].  These are modelled as primitive operations of a small
    state-and-exit monad over an explicit [world]: the file system, the
    table of open descriptors, the scripted behaviour of [write], and a
    trace of the calls made.  [safe_error_exit] ends the computation
    with [Exits]; everything else [Returns]. *)

From stdpp Require Import base decidable option list gmap strings.
From Stdlib Require Import ZArith Lia.

Local Open Scope string_scope.
Local Open Scope list_scope.
Local Open Scope Z_scope.

(** ** Constants of <linux/input-event-codes.h> and C integer types *)

Definition EV_SND : Z := 18.     (* 0x12 *)
Definition SND_BELL : Z := 1.
Definition SND_TONE : Z := 2.

(** Conversions to the fixed-width types the code uses (LP64 Linux). *)
Definition to_uint16 (z : Z) : Z := z mod 2 ^ 16.
Definition to_int32 (z : Z) : Z := (z + 2 ^ 31) mod 2 ^ 32 - 2 ^ 31.
Definition to_uint32 (z : Z) : Z := z mod 2 ^ 32.
Definition to_ulong (z : Z) : Z := z mod 2 ^ 64.
Definition to_uintptr (z : Z) : Z := z mod 2 ^ 64.

(** The result of a C comparison or logical operator, as an [int]. *)
Definition c_bool (b : bool) : Z := if b then 1 else 0.

(** ** struct input_event

    [struct timeval time; __u16 type; __u16 code; __s32 value;]
    On LP64 the structure has no padding and is 24 bytes long. *)

Record input_event := mk_input_event {
  time_tv_sec : Z;
  time_tv_usec : Z;
  type : Z;
  code : Z;
  value : Z
}.

Definition sizeof_input_event : Z := 24.
Definition sizeof_ulong : Z := 8.

(** [memset(&e, 0, sizeof(e))] *)
Definition memset_zero : input_event := mk_input_event 0 0 0 0 0.

Definition set_type (v : Z) (e : input_event) : input_event :=
  mk_input_event (time_tv_sec e) (time_tv_usec e) (to_uint16 v) (code e) (value e).
Definition set_code (v : Z) (e : input_event) : input_event :=
  mk_input_event (time_tv_sec e) (time_tv_usec e) (type e) (to_uint16 v) (value e).
Definition set_value (v : Z) (e : input_event) : input_event :=
  mk_input_event (time_tv_sec e) (time_tv_usec e) (type e) (code e) (to_int32 v).

(** ** enum snd_api_type *)

Inductive snd_api_type := SND_API_TONE | SND_API_BELL.

Definition snd_api_to_Z (a : snd_api_type) : Z :=
  match a with SND_API_TONE => 0 | SND_API_BELL => 1 end.

(** The cast [(enum snd_api_type)(driver->device_flags)], as far as the
    [switch] statements distinguish its values.  The enumeration is an
    [unsigned int]: the cast keeps the low 32 bits of the 64-bit field,
    and the [switch] has a case for 0, a case for 1 and no default. *)
Definition snd_api_of_Z (z : Z) : option snd_api_type :=
  let v := to_uint32 z in
  if decide (v = 0) then Some SND_API_TONE
  else if decide (v = 1) then Some SND_API_BELL
  else None.

(** ** The driver instance (the fields of [beep_driver] this file uses) *)

Record beep_driver := mk_beep_driver {
  name : string;
  device_fd : Z;
  device_name : option string;     (* [None] is the NULL pointer *)
  device_flags : Z
}.

Definition set_device_fd (fd : Z) (d : beep_driver) : beep_driver :=
  mk_beep_driver (name d) fd (device_name d) (device_flags d).
Definition set_device_name (n : string) (d : beep_driver) : beep_driver :=
  mk_beep_driver (name d) (device_fd d) (Some n) (device_flags d).
Definition set_device_flags (f : Z) (d : beep_driver) : beep_driver :=
  mk_beep_driver (name d) (device_fd d) (device_name d) (to_uintptr f).

(** ** The environment *)

(** What a device node answers to the two ioctl requests. *)
Record device := mk_device {
  dev_ev_snd : bool;            (* EVIOCGSND is implemented *)
  dev_snd_bits : option Z       (* EVIOCGBIT(EV_SND): the bitmask, or failure *)
}.

Inductive node :=
| RegularFile
| CharDevice (d : device).

Inductive syscall :=
| SysOpenChecked (path : string) (ret : Z)
| SysIoctlGSND (fd : Z) (ret : Z)
| SysIoctlGBIT (fd : Z) (ev : Z) (len : Z) (ret : Z)
| SysWrite (fd : Z) (e : input_event) (count : Z) (ret : Z)
| SysClose (fd : Z) (ret : Z)
| SysExit (msg : string).

Record world := mk_world {
  w_fs : gmap string node;        (* the file system *)
  w_fds : gmap Z device;          (* the open descriptors of the process *)
  w_nofile : nat;                 (* descriptors are below this limit *)
  w_wr : list (option nat);       (* what the coming write calls accept *)
  w_trace : list syscall;         (* the calls made, oldest first *)
  w_log : list string             (* LOG_VERBOSE output, oldest first *)
}.

Definition with_fds (fds : gmap Z device) (w : world) : world :=
  mk_world (w_fs w) fds (w_nofile w) (w_wr w) (w_trace w) (w_log w).
Definition with_wr (wr : list (option nat)) (w : world) : world :=
  mk_world (w_fs w) (w_fds w) (w_nofile w) wr (w_trace w) (w_log w).
Definition record_call (c : syscall) (w : world) : world :=
  mk_world (w_fs w) (w_fds w) (w_nofile w) (w_wr w) (w_trace w ++ [c]) (w_log w).
Definition record_log (m : string) (w : world) : world :=
  mk_world (w_fs w) (w_fds w) (w_nofile w) (w_wr w) (w_trace w) (w_log w ++ [m]).

(** ** The monad: state passing over [world], with process exit *)

Inductive outcome (A : Type) :=
| Returns (a : A) (w : world)
| Exits (w : world).
Arguments Returns {A} a w.
Arguments Exits {A} w.

Definition M (A : Type) : Type := world → outcome A.

#[global] Instance M_ret : MRet M := λ A a w, Returns a w.
#[global] Instance M_bind : MBind M := λ A B f m w,
  match m w with
  | Returns a w' => f a w'
  | Exits w' => Exits w'
  end.

Definition final_world {A} (o : outcome A) : world :=
  match o with Returns _ w => w | Exits w => w end.

(** ** Primitive operations *)

Definition LOG_VERBOSE (fmt : string) : M unit :=
  λ w, Returns () (record_log fmt w).

(** The lowest descriptor below the limit that is not open. *)
Definition lowest_free_fd (w : world) : option Z :=
  find (λ i, bool_decide (w_fds w !! i = None)) (seqZ 0 (Z.of_nat (w_nofile w))).

(** Modelled from the spec: [open_checked_char_device] of beep-library.c
    is not part of this file.  Given a path it opens it and confirms it
    is a character device; it returns an open handle or the negative
    signal -1, in which case nothing is left open. *)
Definition open_checked_char_device (device_name : string) : M Z :=
  λ w,
    match w_fs w !! device_name with
    | Some (CharDevice d) =>
        match lowest_free_fd w with
        | Some fd =>
            Returns fd (record_call (SysOpenChecked device_name fd)
                          (with_fds (<[fd := d]> (w_fds w)) w))
        | None => Returns (-1) (record_call (SysOpenChecked device_name (-1)) w)
        end
    | _ => Returns (-1) (record_call (SysOpenChecked device_name (-1)) w)
    end.

(** [ioctl(fd, EVIOCGSND(0))]: 0 on an evdev node, -1 otherwise. *)
Definition ioctl_EVIOCGSND (fd : Z) : M Z :=
  λ w,
    let r := match w_fds w !! fd with
             | Some d => if dev_ev_snd d then 0 else -1
             | None => -1
             end in
    Returns r (record_call (SysIoctlGSND fd r) w).

(** [ioctl(fd, EVIOCGBIT(ev, len), &evbit)]: on success the bitmask is
    stored through the pointer and the number of bytes copied is
    returned; on failure the variable keeps its value. *)
Definition ioctl_EVIOCGBIT (fd ev len evbit : Z) : M (Z * Z) :=
  λ w,
    let '(r, evbit') :=
      match w_fds w !! fd with
      | Some d =>
          match dev_snd_bits d with
          | Some bits => (len, to_ulong bits)
          | None => (-1, evbit)
          end
      | None => (-1, evbit)
      end in
    Returns (r, evbit') (record_call (SysIoctlGBIT fd ev len r) w).

(** What the next [write] of [count] bytes to [fd] returns. *)
Definition write_result (fd count : Z) (w : world) : Z :=
  match w_fds w !! fd with
  | None => -1
  | Some _ =>
      match w_wr w with
      | [] => count
      | None :: _ => -1
      | Some n :: _ => Z.min (Z.of_nat n) count
      end
  end.

(** [write(fd, &e, count)] *)
Definition sys_write (fd : Z) (e : input_event) (count : Z) : M Z :=
  λ w,
    let r := write_result fd count w in
    Returns r (record_call (SysWrite fd e count r) (with_wr (tail (w_wr w)) w)).

(** [close(fd)] *)
Definition sys_close (fd : Z) : M Z :=
  λ w,
    let r := if decide (is_Some (w_fds w !! fd)) then 0 else -1 in
    Returns r (record_call (SysClose fd r) (with_fds (delete fd (w_fds w)) w)).

(** Modelled from the spec: [safe_error_exit] of beep-library.c is not
    part of this file.  It terminates the process and does not return to
    its caller. *)
Definition safe_error_exit {A} (msg : string) : M A :=
  λ w, Exits (record_call (SysExit msg) w).

(** ** The functions of beep-driver-evdev.c *)

Definition open_checked_device (device_name : string) : M Z :=
  fd ← open_checked_char_device device_name;
  if decide (fd = -1) then mret (-1)
  else
    r ← ioctl_EVIOCGSND fd;
    if decide (-1 = r) then
      LOG_VERBOSE "%d does not implement EV_SND API";;
      mret (-1)
    else mret fd.

Definition default_name : string :=
  "/dev/input/by-path/platform-pcspkr-event-spkr".

Definition driver_detect (driver : beep_driver) (console_device : option string)
  : M (bool * beep_driver) :=
  match console_device with
  | Some _ => LOG_VERBOSE "driver_detect %p %s"
  | None => LOG_VERBOSE "driver_detect %p %p"
  end;;
  '(device_open, driver) ←
    match console_device with
    | Some console_device =>
        fd ← open_checked_device console_device;
        if decide (fd >= 0)
        then mret (true, set_device_name console_device (set_device_fd fd driver))
        else mret (false, driver)
    | None =>
        fd ← open_checked_device default_name;
        if decide (fd >= 0)
        then mret (true, set_device_name default_name (set_device_fd fd driver))
        else mret (false, driver)
    end;
  if negb device_open then mret (false, driver)
  else
    let evbit := 0 in
    '(r, evbit) ← ioctl_EVIOCGBIT (device_fd driver) EV_SND sizeof_ulong evbit;
    if decide (-1 = r) then
      LOG_VERBOSE "%d does not implement EVIOCGBIT";;
      mret (false, driver)
    else if negb (Z.land evbit (Z.shiftl 1 SND_TONE) =? 0) then
      LOG_VERBOSE "found SND_TONE support for fd=%d";;
      mret (true, set_device_flags (snd_api_to_Z SND_API_TONE) driver)
    else if negb (Z.land evbit (Z.shiftl 1 SND_BELL) =? 0) then
      LOG_VERBOSE "falling back to SND_BELL support for fd=%d";;
      mret (true, set_device_flags (snd_api_to_Z SND_API_BELL) driver)
    else
      LOG_VERBOSE "fd=%d supports neither SND_TONE nor SND_BELL";;
      mret (false, driver).

Definition driver_init (driver : beep_driver) : M unit :=
  LOG_VERBOSE "driver_init %p".

Definition driver_fini (driver : beep_driver) : M beep_driver :=
  LOG_VERBOSE "driver_fini %p";;
  sys_close (device_fd driver);;
  mret (set_device_fd (-1) driver).

Definition driver_begin_tone (driver : beep_driver) (freq : Z) : M unit :=
  let freq := to_uint16 freq in
  LOG_VERBOSE "driver_begin_tone %p %u";;
  let e := memset_zero in
  let e := set_type EV_SND e in
  let e :=
    match snd_api_of_Z (device_flags driver) with
    | Some SND_API_TONE => set_value freq (set_code SND_TONE e)
    | Some SND_API_BELL => set_value (c_bool (0 =? 0)) (set_code SND_BELL e)
    | None => e
    end in
  n ← sys_write (device_fd driver) e sizeof_input_event;
  if negb (sizeof_input_event =? to_ulong n)
  then safe_error_exit "write EV_SND"
  else mret ().

Definition driver_end_tone (driver : beep_driver) : M unit :=
  LOG_VERBOSE "driver_end_tone %p";;
  let e := memset_zero in
  let e := set_type EV_SND e in
  let e :=
    match snd_api_of_Z (device_flags driver) with
    | Some SND_API_TONE => set_value 0 (set_code SND_TONE e)
    | Some SND_API_BELL => set_value (c_bool (negb (0 =? 0))) (set_code SND_BELL e)
    | None => e
    end in
  n ← sys_write (device_fd driver) e sizeof_input_event;
  if negb (sizeof_input_event =? to_ulong n)
  then safe_error_exit "write EV_SND"
  else mret ().

(** The statically initialised instance: of the ten initialisers, the
    name, the descriptor (0), the device name (NULL) and the flags (0). *)
Definition driver_data : beep_driver :=
  mk_beep_driver "evdev" 0 None 0.

(** ** Observations on a trace *)

(** The paths handed to the device validator, in call order. *)
Definition opened_paths (t : list syscall) : list string :=
  omap (λ c, match c with SysOpenChecked p _ => Some p | _ => None end) t.

(** The [write] calls: descriptor, record and byte count, in call order. *)
Definition writes_of (t : list syscall) : list (Z * input_event * Z) :=
  omap (λ c, match c with SysWrite fd e n _ => Some (fd, e, n) | _ => None end) t.

(** The descriptors [close] was called on, in call order. *)
Definition closes_of (t : list syscall) : list Z :=
  omap (λ c, match c with SysClose fd _ => Some fd | _ => None end) t.

(** What the bitmask query on [fd] answers in [w]; [None] when the
    control call itself fails. *)
Definition probe_mask (w : world) (fd : Z) : option Z :=
  d ← w_fds w !! fd; dev_snd_bits d.

(** The path [p] names a character device [d] that can be opened as
    descriptor [fd]. *)
Definition opens_as (w : world) (p : string) (fd : Z) (d : device) : Prop :=
  w_fs w !! p = Some (CharDevice d) ∧ lowest_free_fd w = Some fd.

(** The world right after an emitter has logged [fmt] and written the
    record [e] to the descriptor of [drv], starting from [w]. *)
Definition after_write (drv : beep_driver) (w : world) (fmt : string)
    (e : input_event) : world :=
  record_call
    (SysWrite (device_fd drv) e sizeof_input_event
       (write_result (device_fd drv) sizeof_input_event w))
    (with_wr (tail (w_wr w)) (record_log fmt w)).

(** How an emitter ends in [w1] when its [write] was issued in [w]: it
    returns after a full write and exits otherwise. *)
Definition emitter_finish (drv : beep_driver) (w w1 : world) : outcome unit :=
  if bool_decide (write_result (device_fd drv) sizeof_input_event w
                  = sizeof_input_event)
  then Returns () w1
  else Exits (record_call (SysExit "write EV_SND") w1).

(** The script lets each of the next [k] writes take a whole record. *)
Fixpoint accepts_records (k : nat) (wr : list (option nat)) : bool :=
  match k, wr with
  | O, _ => true
  | S _, [] => true
  | S k, Some n :: wr => (sizeof_input_event <=? Z.of_nat n) && accepts_records k wr
  | S _, None :: _ => false
  end.

(** ** Sample environments *)

Definition tty : device := mk_device false None.
Definition null_dev : device := mk_device false None.         (* no evdev node *)
Definition pcspkr : device := mk_device true (Some 6).       (* tone and bell *)
Definition bell_only : device := mk_device true (Some 2).
Definition mute_evdev : device := mk_device true (Some 0).
Definition no_evbit : device := mk_device true None.

Definition sample_fs : gmap string node :=
  <[default_name := CharDevice pcspkr]>
  (<["/dev/input/event7" := CharDevice bell_only]>
  (<["/dev/input/event8" := CharDevice mute_evdev]>
  (<["/dev/input/event9" := CharDevice no_evbit]>
  (<["/dev/null" := CharDevice null_dev]>
  (<["/etc/passwd" := RegularFile]> ∅))))).

Definition stdio : gmap Z device := <[0 := tty]> (<[1 := tty]> (<[2 := tty]> ∅)).

Definition sample_world : world := mk_world sample_fs stdio 16 [] [] [].

(** * Properties *)

(** ** Integer conversions and bit tests *)

Lemma to_uint16_id (f : Z) : 0 ≤ f ≤ 65535 → to_uint16 f = f.
Proof. intros Hf. unfold to_uint16. apply Z.mod_small. lia. Qed.

Lemma to_int32_id (v : Z) : - 2 ^ 31 ≤ v < 2 ^ 31 → to_int32 v = v.
Proof. intros Hv. unfold to_int32. rewrite Z.mod_small; lia. Qed.

(** [x & (1 << k)] is non-zero exactly when bit [k] of [x] is set. *)
Lemma land_one_shiftl (x k : Z) :
  0 ≤ k → (Z.land x (Z.shiftl 1 k) =? 0) = negb (Z.testbit x k).
Proof.
  intros Hk. rewrite Z.shiftl_1_l.
  destruct (Z.testbit x k) eqn:Hb; simpl.
  - apply Z.eqb_neq. intros H0.
    assert (Hk' : Z.testbit (Z.land x (2 ^ k)) k = true).
    { rewrite Z.land_spec, Hb, Z.pow2_bits_true; [done | lia]. }
    rewrite H0, Z.bits_0 in Hk'. discriminate.
  - apply Z.eqb_eq. apply Z.bits_inj'. intros n Hn.
    rewrite Z.land_spec, Z.bits_0.
    destruct (decide (n = k)) as [->|Hne].
    + rewrite Hb. done.
    + rewrite Z.pow2_bits_false by lia. apply andb_false_r.
Qed.

(** Storing a mask in an [unsigned long] keeps its low bits. *)
Lemma to_ulong_testbit (m k : Z) :
  0 ≤ k < 64 → Z.testbit (to_ulong m) k = Z.testbit m k.
Proof. intros Hk. unfold to_ulong. apply Z.mod_pow2_bits_low. lia. Qed.

(** ** The descriptor table *)

Lemma lowest_free_fd_Some (w : world) (fd : Z) :
  lowest_free_fd w = Some fd →
  0 ≤ fd < Z.of_nat (w_nofile w) ∧ w_fds w !! fd = None.
Proof.
  unfold lowest_free_fd. intros Hfind.
  apply find_some in Hfind as [Hin Hfree].
  apply list_elem_of_In, elem_of_seqZ in Hin.
  apply bool_decide_eq_true in Hfree. split; [lia | done].
Qed.

(** [write] returns -1 or a count between 0 and what was asked for. *)
Lemma write_result_range (fd count : Z) (w : world) :
  0 ≤ count → -1 ≤ write_result fd count w ≤ count.
Proof.
  intros Hc. unfold write_result.
  destruct (w_fds w !! fd); [|lia].
  destruct (w_wr w) as [|[n|] ?]; lia.
Qed.

(** The size test of the tone emitter, on what [write] can return. *)
Lemma size_test (fd : Z) (w : world) :
  negb (sizeof_input_event =? to_ulong (write_result fd sizeof_input_event w))
  = negb (bool_decide (write_result fd sizeof_input_event w = sizeof_input_event)).
Proof.
  f_equal.
  pose proof (write_result_range fd sizeof_input_event w) as Hr.
  unfold sizeof_input_event, to_ulong in *.
  set (r := write_result fd 24 w) in *.
  assert (Hr' : -1 ≤ r ≤ 24) by (apply Hr; lia). clear Hr.
  case_bool_decide as Heq.
  - rewrite Heq. done.
  - apply Z.eqb_neq. intros Hmod.
    destruct (decide (r = -1)) as [->|Hne]; [done|].
    rewrite Z.mod_small in Hmod by lia. lia.
Qed.

(** ** Traces *)

Lemma opened_paths_app (t1 t2 : list syscall) :
  opened_paths (t1 ++ t2) = opened_paths t1 ++ opened_paths t2.
Proof. apply omap_app. Qed.

Lemma writes_of_app (t1 t2 : list syscall) :
  writes_of (t1 ++ t2) = writes_of t1 ++ writes_of t2.
Proof. apply omap_app. Qed.

Lemma closes_of_app (t1 t2 : list syscall) :
  closes_of (t1 ++ t2) = closes_of t1 ++ closes_of t2.
Proof. apply omap_app. Qed.

(** ** What each function computes

    Each lemma of this part evaluates one function of the driver on an
    arbitrary world, case by case on what the environment answers. *)

Lemma open_checked_device_run (p : string) (w : world) :
  open_checked_device p w =
    match w_fs w !! p with
    | Some (CharDevice d) =>
        match lowest_free_fd w with
        | Some fd =>
            let w1 := record_call (SysOpenChecked p fd)
                        (with_fds (<[fd := d]> (w_fds w)) w) in
            if dev_ev_snd d
            then Returns fd (record_call (SysIoctlGSND fd 0) w1)
            else Returns (-1) (record_log "%d does not implement EV_SND API"
                                 (record_call (SysIoctlGSND fd (-1)) w1))
        | None => Returns (-1) (record_call (SysOpenChecked p (-1)) w)
        end
    | _ => Returns (-1) (record_call (SysOpenChecked p (-1)) w)
    end.
Proof.
  unfold open_checked_device, mbind, M_bind, open_checked_char_device.
  destruct (w_fs w !! p) as [[|d]|]; [done| |done].
  destruct (lowest_free_fd w) as [fd|] eqn:Hfd; [|done].
  apply lowest_free_fd_Some in Hfd as [Hfd _].
  destruct (decide (fd = -1)) as [->|_]; [lia|].
  unfold ioctl_EVIOCGSND. cbn [w_fds record_call with_fds].
  rewrite lookup_insert_eq.
  destruct (dev_ev_snd d); done.
Qed.

Lemma driver_detect_run (drv : beep_driver) (cd : option string) (w : world) :
  driver_detect drv cd w =
    let p := default default_name cd in
    let w1 := record_log (match cd with
                          | Some _ => "driver_detect %p %s"
                          | None => "driver_detect %p %p"
                          end) w in
    match open_checked_device p w1 with
    | Exits w2 => Exits w2
    | Returns fd w2 =>
        if decide (fd >= 0) then
          let drv1 := set_device_name p (set_device_fd fd drv) in
          match probe_mask w2 fd with
          | None =>
              Returns (false, drv1)
                (record_log "%d does not implement EVIOCGBIT"
                   (record_call (SysIoctlGBIT fd EV_SND sizeof_ulong (-1)) w2))
          | Some m =>
              let w3 := record_call
                          (SysIoctlGBIT fd EV_SND sizeof_ulong sizeof_ulong) w2 in
              if Z.testbit m SND_TONE then
                Returns (true, set_device_flags (snd_api_to_Z SND_API_TONE) drv1)
                  (record_log "found SND_TONE support for fd=%d" w3)
              else if Z.testbit m SND_BELL then
                Returns (true, set_device_flags (snd_api_to_Z SND_API_BELL) drv1)
                  (record_log "falling back to SND_BELL support for fd=%d" w3)
              else
                Returns (false, drv1)
                  (record_log "fd=%d supports neither SND_TONE nor SND_BELL" w3)
          end
        else Returns (false, drv) w2
    end.
Proof.
  unfold driver_detect, mbind, M_bind.
  destruct cd as [p|]; cbn [default from_option id LOG_VERBOSE];
    (match goal with
     | |- context [open_checked_device ?q ?w1] =>
         destruct (open_checked_device q w1) as [fd w2|w2]; [|done]
     end;
     destruct (decide (fd >= 0)) as [Hfd|Hfd]; cbn [mret M_ret negb]; [|done];
     unfold ioctl_EVIOCGBIT, probe_mask; cbn [device_fd set_device_name set_device_fd];
     destruct (w_fds w2 !! fd) as [d|]; cbn [mbind option_bind]; [|done];
     destruct (dev_snd_bits d) as [m|]; [|done];
     destruct (decide (-1 = sizeof_ulong)) as [Habs|_]; [discriminate Habs|];
     rewrite !land_one_shiftl by done;
     rewrite !to_ulong_testbit by done;
     rewrite !negb_involutive;
     destruct (Z.testbit m SND_TONE); [done|];
     destruct (Z.testbit m SND_BELL); done).
Qed.

Lemma driver_fini_run (drv : beep_driver) (w : world) :
  driver_fini drv w =
    let fd := device_fd drv in
    Returns (set_device_fd (-1) drv)
      (record_call (SysClose fd (if decide (is_Some (w_fds w !! fd)) then 0 else -1))
         (with_fds (delete fd (w_fds w)) (record_log "driver_fini %p" w))).
Proof. reflexivity. Qed.

Section ToneEmitter.

Variable drv : beep_driver.
Variable w : world.

Lemma driver_begin_tone_run (freq : Z) :
  driver_begin_tone drv freq w =
    emitter_finish drv w (after_write drv w "driver_begin_tone %p %u"
      match snd_api_of_Z (device_flags drv) with
      | Some SND_API_TONE =>
          mk_input_event 0 0 EV_SND SND_TONE (to_int32 (to_uint16 freq))
      | Some SND_API_BELL => mk_input_event 0 0 EV_SND SND_BELL 1
      | None => mk_input_event 0 0 EV_SND 0 0
      end).
Proof.
  unfold driver_begin_tone, emitter_finish, after_write, mbind, M_bind.
  cbn [LOG_VERBOSE sys_write].
  change (write_result (device_fd drv) sizeof_input_event (record_log _ w))
    with (write_result (device_fd drv) sizeof_input_event w).
  rewrite size_test.
  destruct (snd_api_of_Z (device_flags drv)) as [[|]|];
    case_bool_decide; reflexivity.
Qed.

Lemma driver_end_tone_run :
  driver_end_tone drv w =
    emitter_finish drv w (after_write drv w "driver_end_tone %p"
      match snd_api_of_Z (device_flags drv) with
      | Some SND_API_TONE => mk_input_event 0 0 EV_SND SND_TONE 0
      | Some SND_API_BELL => mk_input_event 0 0 EV_SND SND_BELL 0
      | None => mk_input_event 0 0 EV_SND 0 0
      end).
Proof.
  unfold driver_end_tone, emitter_finish, after_write, mbind, M_bind.
  cbn [LOG_VERBOSE sys_write].
  change (write_result (device_fd drv) sizeof_input_event (record_log _ w))
    with (write_result (device_fd drv) sizeof_input_event w).
  rewrite size_test.
  destruct (snd_api_of_Z (device_flags drv)) as [[|]|];
    case_bool_decide; reflexivity.
Qed.

End ToneEmitter.

(** Reads the [write] calls off the trace an emitter leaves, on both of
    its exits. *)
Ltac emitted_writes :=
  case_bool_decide; cbn [final_world record_call w_trace];
  rewrite ?writes_of_app; cbn; rewrite ?app_nil_r; reflexivity.

(** * The claims *)

(** ** Tone emission *)

(** C1.  Under the tone protocol, for every frequency [f] in
    [0, 65535], zero included, [driver_begin_tone] makes exactly one
    [write], of one record of the fixed size, whose type is [EV_SND],
    whose code is [SND_TONE] and whose value is [f] itself;
    [driver_end_tone] makes one [write] of a record with the same type
    and code and value 0, in every world, and so in the world any
    earlier [driver_begin_tone] has left behind. *)
Theorem tone_protocol_records (drv : beep_driver) (w : world) (f : Z) :
  device_flags drv = snd_api_to_Z SND_API_TONE →
  0 ≤ f ≤ 65535 →
  (∃ e, writes_of (w_trace (final_world (driver_begin_tone drv f w)))
          = writes_of (w_trace w) ++ [(device_fd drv, e, sizeof_input_event)]
        ∧ type e = EV_SND ∧ code e = SND_TONE ∧ value e = f)
  ∧ (∃ e, writes_of (w_trace (final_world (driver_end_tone drv w)))
            = writes_of (w_trace w) ++ [(device_fd drv, e, sizeof_input_event)]
          ∧ type e = EV_SND ∧ code e = SND_TONE ∧ value e = 0)
  ∧ (∀ w1, driver_begin_tone drv f w = Returns () w1 →
       ∃ e, writes_of (w_trace (final_world (driver_end_tone drv w1)))
              = writes_of (w_trace w1) ++ [(device_fd drv, e, sizeof_input_event)]
            ∧ type e = EV_SND ∧ code e = SND_TONE ∧ value e = 0).
Proof.
  intros Hflags Hf.
  assert (Hend : ∀ w0, ∃ e,
    writes_of (w_trace (final_world (driver_end_tone drv w0)))
      = writes_of (w_trace w0) ++ [(device_fd drv, e, sizeof_input_event)]
    ∧ type e = EV_SND ∧ code e = SND_TONE ∧ value e = 0).
  { intros w0. rewrite driver_end_tone_run, Hflags. unfold emitter_finish, after_write. cbn [snd_api_to_Z snd_api_of_Z].
    eexists. split.
    - emitted_writes.
    - split; [|split]; reflexivity. }
  split; [|split; [apply Hend | intros w1 _; apply Hend]].
  rewrite driver_begin_tone_run, Hflags. unfold emitter_finish, after_write. cbn [snd_api_to_Z snd_api_of_Z].
  eexists. split.
  - emitted_writes.
  - split; [reflexivity|]. split; [reflexivity|].
    cbn [value]. rewrite to_uint16_id by done. apply to_int32_id. lia.
Qed.

Lemma tone_protocol_records_witness :
  ∃ e, writes_of (w_trace (final_world
         (driver_begin_tone (set_device_fd 1 driver_data) 440 sample_world)))
       = [(1, e, 24)] ∧ type e = 18 ∧ code e = 2 ∧ value e = 440.
Proof.
  destruct (tone_protocol_records (set_device_fd 1 driver_data) sample_world 440)
    as [Hbegin _]; [reflexivity | lia | exact Hbegin].
Defined.

(** C6.  Under the bell protocol, for every frequency argument,
    [driver_begin_tone] writes a record with the bell code and value 1,
    and [driver_end_tone] one with the bell code and value 0. *)
Theorem bell_protocol_records (drv : beep_driver) (w : world) (f : Z) :
  device_flags drv = snd_api_to_Z SND_API_BELL →
  (∃ e, writes_of (w_trace (final_world (driver_begin_tone drv f w)))
          = writes_of (w_trace w) ++ [(device_fd drv, e, sizeof_input_event)]
        ∧ code e = SND_BELL ∧ value e = 1)
  ∧ (∃ e, writes_of (w_trace (final_world (driver_end_tone drv w)))
            = writes_of (w_trace w) ++ [(device_fd drv, e, sizeof_input_event)]
          ∧ code e = SND_BELL ∧ value e = 0).
Proof.
  intros Hflags. split.
  - rewrite driver_begin_tone_run, Hflags. unfold emitter_finish, after_write.
    cbn [snd_api_to_Z snd_api_of_Z].
    eexists. split; [emitted_writes | split; reflexivity].
  - rewrite driver_end_tone_run, Hflags. unfold emitter_finish, after_write.
    cbn [snd_api_to_Z snd_api_of_Z].
    eexists. split; [emitted_writes | split; reflexivity].
Qed.

Lemma bell_protocol_records_witness :
  ∃ e, writes_of (w_trace (final_world
         (driver_begin_tone (set_device_flags 1 (set_device_fd 1 driver_data))
            440 sample_world)))
       = [(1, e, 24)] ∧ code e = 1 ∧ value e = 1.
Proof.
  destruct (bell_protocol_records
              (set_device_flags 1 (set_device_fd 1 driver_data)) sample_world 440)
    as [Hbegin _]; [reflexivity | exact Hbegin].
Defined.

(** C10.  Whatever the instance holds, the one record [driver_begin_tone]
    or [driver_end_tone] writes has type [EV_SND] and a zero timestamp:
    the record is cleared before type, code and value are assigned, and
    nothing else is assigned. *)
Theorem emitted_record_is_cleared (drv : beep_driver) (w : world) (f : Z) :
  (∃ e, writes_of (w_trace (final_world (driver_begin_tone drv f w)))
          = writes_of (w_trace w) ++ [(device_fd drv, e, sizeof_input_event)]
        ∧ type e = EV_SND ∧ time_tv_sec e = 0 ∧ time_tv_usec e = 0)
  ∧ (∃ e, writes_of (w_trace (final_world (driver_end_tone drv w)))
            = writes_of (w_trace w) ++ [(device_fd drv, e, sizeof_input_event)]
          ∧ type e = EV_SND ∧ time_tv_sec e = 0 ∧ time_tv_usec e = 0).
Proof.
  split.
  - rewrite driver_begin_tone_run. unfold emitter_finish, after_write.
    destruct (snd_api_of_Z (device_flags drv)) as [[|]|];
      (eexists; split; [emitted_writes | repeat split]).
  - rewrite driver_end_tone_run. unfold emitter_finish, after_write.
    destruct (snd_api_of_Z (device_flags drv)) as [[|]|];
      (eexists; split; [emitted_writes | repeat split]).
Qed.

(** C3.  Let [r] be what the device [write] returns.  If [r] differs
    from the size of the record, [driver_begin_tone] and
    [driver_end_tone] do not return: right after the [write] they end
    the process through [safe_error_exit].  If [r] is the size of the
    record they return normally. *)
Theorem short_write_is_fatal (drv : beep_driver) (w : world) (f : Z) :
  let r := write_result (device_fd drv) sizeof_input_event w in
  (∃ e w1,
     w_trace w1 = w_trace w ++ [SysWrite (device_fd drv) e sizeof_input_event r]
     ∧ driver_begin_tone drv f w =
         if decide (r = sizeof_input_event) then Returns () w1
         else Exits (record_call (SysExit "write EV_SND") w1))
  ∧ (∃ e w1,
       w_trace w1 = w_trace w ++ [SysWrite (device_fd drv) e sizeof_input_event r]
       ∧ driver_end_tone drv w =
           if decide (r = sizeof_input_event) then Returns () w1
           else Exits (record_call (SysExit "write EV_SND") w1)).
Proof.
  intros r. split.
  - rewrite driver_begin_tone_run. unfold emitter_finish, after_write. fold r.
    destruct (decide (r = sizeof_input_event)) as [Hr|Hr];
      [rewrite bool_decide_eq_true_2 by done
      |rewrite bool_decide_eq_false_2 by done];
      (eexists _, _; split; [|reflexivity]; reflexivity).
  - rewrite driver_end_tone_run. unfold emitter_finish, after_write. fold r.
    destruct (decide (r = sizeof_input_event)) as [Hr|Hr];
      [rewrite bool_decide_eq_true_2 by done
      |rewrite bool_decide_eq_false_2 by done];
      (eexists _, _; split; [|reflexivity]; reflexivity).
Qed.

(** ** Device location and protocol detection *)

(** [opens_as] together with the sound-class answer is exactly the
    success of [open_checked_device]. *)
Lemma open_checked_device_succeeds (p : string) (w : world) (fd : Z) :
  (∃ w', open_checked_device p w = Returns fd w' ∧ fd >= 0)
  ↔ (∃ d, opens_as w p fd d ∧ dev_ev_snd d = true).
Proof.
  rewrite open_checked_device_run. unfold opens_as. split.
  - intros (w' & Hrun & Hfd).
    assert (Hne : fd ≠ -1) by lia.
    destruct (w_fs w !! p) as [[|d]|]; [congruence| |congruence].
    destruct (lowest_free_fd w) as [fd'|]; [|congruence].
    cbv zeta in Hrun. destruct (dev_ev_snd d) eqn:Hsnd; [|congruence].
    exists d. by simplify_eq.
  - intros (d & [-> Hfree] & ->). rewrite Hfree. cbv zeta.
    apply lowest_free_fd_Some in Hfree as [Hfd _].
    eexists. split; [reflexivity | lia].
Qed.

Section Validated.

Variables (w : world) (p : string) (fd : Z) (d : device).
Hypothesis Hopen : opens_as w p fd d.
Hypothesis Hsnd : dev_ev_snd d = true.

Lemma validated_fd_nonneg : fd >= 0.
Proof. destruct Hopen as [_ Hfree]. apply lowest_free_fd_Some in Hfree. lia. Qed.

Lemma validated_fd_free : w_fds w !! fd = None.
Proof. destruct Hopen as [_ Hfree]. apply lowest_free_fd_Some in Hfree. tauto. Qed.

(** Diagnostics do not change what the validator answers. *)
Lemma validated_run (m : string) :
  open_checked_device p (record_log m w) =
    Returns fd
      (record_call (SysIoctlGSND fd 0)
         (record_call (SysOpenChecked p fd)
            (with_fds (<[fd := d]> (w_fds w)) (record_log m w)))).
Proof.
  rewrite open_checked_device_run. destruct Hopen as [Hfs Hfree].
  cbn [w_fs record_log]. rewrite Hfs.
  change (lowest_free_fd (record_log m w)) with (lowest_free_fd w).
  rewrite Hfree. cbv zeta. rewrite Hsnd. reflexivity.
Qed.

End Validated.

(** Simplifies [driver_detect] on a device that opened and passed the
    sound-class check. *)
Ltac detect_on_validated Hopen Hsnd :=
  rewrite driver_detect_run; cbv zeta;
  rewrite (validated_run _ _ _ _ Hopen Hsnd);
  pose proof (validated_fd_nonneg _ _ _ _ Hopen) as Hfd_nonneg;
  rewrite decide_True by done;
  unfold probe_mask; cbn [w_fds record_call with_fds];
  rewrite lookup_insert_eq; cbn [mbind option_bind].

(** C2.  When the device that was opened advertises both the tone bit
    and the bell bit, [driver_detect] succeeds and stores the tone
    protocol, not the bell protocol. *)
Theorem tone_bit_has_priority
    (drv : beep_driver) (cd : option string) (w : world)
    (fd : Z) (d : device) (m : Z) :
  opens_as w (default default_name cd) fd d →
  dev_ev_snd d = true →
  dev_snd_bits d = Some m →
  Z.testbit m SND_TONE = true →
  Z.testbit m SND_BELL = true →
  ∃ drv' w', driver_detect drv cd w = Returns (true, drv') w'
    ∧ snd_api_of_Z (device_flags drv') = Some SND_API_TONE
    ∧ device_flags drv' ≠ snd_api_to_Z SND_API_BELL.
Proof.
  intros Hopen Hsnd Hbits Htone _.
  detect_on_validated Hopen Hsnd.
  rewrite Hbits, Htone. eexists _, _. split; [reflexivity|].
  split; [reflexivity | discriminate].
Qed.

Lemma tone_bit_has_priority_witness :
  ∃ drv' w', driver_detect driver_data None sample_world = Returns (true, drv') w'
    ∧ snd_api_of_Z (device_flags drv') = Some SND_API_TONE
    ∧ device_flags drv' ≠ snd_api_to_Z SND_API_BELL.
Proof.
  apply (tone_bit_has_priority driver_data None sample_world 3 pcspkr 6);
    [split; vm_compute; reflexivity | reflexivity ..].
Defined.

(** C4.  When the device opens and passes the sound-class check but the
    probe fails, because the bitmask query itself fails or because the
    bitmask has neither the tone bit nor the bell bit, [driver_detect]
    returns [false] to its caller in both cases alike.  The descriptor
    is stored in the instance and is still open, no [close] was made,
    and a following [driver_fini] closes it. *)
Theorem probe_failure_keeps_handle
    (drv : beep_driver) (cd : option string) (w : world) (fd : Z) (d : device) :
  opens_as w (default default_name cd) fd d →
  dev_ev_snd d = true →
  (dev_snd_bits d = None
   ∨ ∃ m, dev_snd_bits d = Some m
          ∧ Z.testbit m SND_TONE = false ∧ Z.testbit m SND_BELL = false) →
  ∃ drv' w',
    driver_detect drv cd w = Returns (false, drv') w'
    ∧ drv' = set_device_name (default default_name cd) (set_device_fd fd drv)
    ∧ w_fds w' !! device_fd drv' = Some d
    ∧ closes_of (w_trace w') = closes_of (w_trace w)
    ∧ closes_of (w_trace (final_world (driver_fini drv' w')))
        = closes_of (w_trace w) ++ [fd]
    ∧ w_fds (final_world (driver_fini drv' w')) !! fd = None.
Proof.
  intros Hopen Hsnd Hprobe.
  detect_on_validated Hopen Hsnd.
  destruct Hprobe as [Hbits | (m & Hbits & Htone & Hbell)]; rewrite Hbits.
  - eexists _, _. split; [reflexivity|]. split; [reflexivity|].
    cbn [device_fd set_device_name set_device_fd w_fds record_log record_call
         with_fds w_trace final_world driver_fini].
    rewrite lookup_insert_eq, driver_fini_run. cbv zeta.
    cbn [device_fd set_device_name set_device_fd w_fds record_log record_call
         with_fds w_trace final_world].
    rewrite !closes_of_app, lookup_delete_eq. cbn. rewrite !app_nil_r. done.
  - rewrite Htone, Hbell.
    eexists _, _. split; [reflexivity|]. split; [reflexivity|].
    cbn [device_fd set_device_name set_device_fd w_fds record_log record_call
         with_fds w_trace final_world driver_fini].
    rewrite lookup_insert_eq, driver_fini_run. cbv zeta.
    cbn [device_fd set_device_name set_device_fd w_fds record_log record_call
         with_fds w_trace final_world].
    rewrite !closes_of_app, lookup_delete_eq. cbn. rewrite !app_nil_r. done.
Qed.

Lemma probe_failure_keeps_handle_witness :
  ∃ drv' w',
    driver_detect driver_data (Some "/dev/input/event8") sample_world
      = Returns (false, drv') w'
    ∧ drv' = set_device_name "/dev/input/event8" (set_device_fd 3 driver_data)
    ∧ w_fds w' !! device_fd drv' = Some mute_evdev
    ∧ closes_of (w_trace w') = closes_of (w_trace sample_world)
    ∧ closes_of (w_trace (final_world (driver_fini drv' w')))
        = closes_of (w_trace sample_world) ++ [3]
    ∧ w_fds (final_world (driver_fini drv' w')) !! 3 = None.
Proof.
  apply (probe_failure_keeps_handle driver_data (Some "/dev/input/event8")
           sample_world 3 mute_evdev).
  - split; vm_compute; reflexivity.
  - reflexivity.
  - right. exists 0. repeat split; reflexivity.
Defined.

(** Each run of [driver_detect] hands exactly one path to the validator. *)
Lemma detect_opened_paths (drv : beep_driver) (cd : option string) (w : world) :
  opened_paths (w_trace (final_world (driver_detect drv cd w)))
  = opened_paths (w_trace w) ++ [default default_name cd].
Proof.
  rewrite driver_detect_run. cbv zeta.
  rewrite open_checked_device_run. cbn [w_fs record_log].
  set (p := default default_name cd).
  destruct (w_fs w !! p) as [[|d]|];
    [ rewrite decide_False by lia
    | destruct (lowest_free_fd _) as [fd|] eqn:Hfree;
      [ apply lowest_free_fd_Some in Hfree as [Hfd _]; cbv zeta;
        destruct (dev_ev_snd d);
        [ rewrite decide_True by lia;
          destruct (probe_mask _ fd) as [m|];
          [ destruct (Z.testbit m SND_TONE); [|destruct (Z.testbit m SND_BELL)] |]
        | rewrite decide_False by lia ]
      | rewrite decide_False by lia ]
    | rewrite decide_False by lia ];
    cbn [final_world w_trace record_log record_call with_fds];
    rewrite ?opened_paths_app; cbn; rewrite ?app_nil_r; reflexivity.
Qed.

(** C7.  A candidate path given to [driver_detect] is the only path it
    tries; without one it tries the single default path
    /dev/input/by-path/platform-pcspkr-event-spkr.  Either way exactly
    one open attempt is made. *)
Theorem detect_tries_one_path (drv : beep_driver) (w : world) :
  (∀ p : string,
     opened_paths (w_trace (final_world (driver_detect drv (Some p) w)))
     = opened_paths (w_trace w) ++ [p])
  ∧ opened_paths (w_trace (final_world (driver_detect drv None w)))
    = opened_paths (w_trace w) ++ ["/dev/input/by-path/platform-pcspkr-event-spkr"].
Proof.
  split; [intros p|]; apply detect_opened_paths.
Qed.

(** ** Failed detection and release *)

(** A path that is no character device, or that cannot be opened,
    leaves both the instance and the descriptor table as they were. *)
Lemma detect_no_device (drv : beep_driver) (cd : option string) (w : world) :
  (∀ fd d, ¬ opens_as w (default default_name cd) fd d) →
  ∃ w', driver_detect drv cd w = Returns (false, drv) w' ∧ w_fds w' = w_fds w.
Proof.
  intros Hno. rewrite driver_detect_run. cbv zeta.
  rewrite open_checked_device_run. cbn [w_fs record_log].
  unfold opens_as in Hno.
  destruct (w_fs w !! default default_name cd) as [[|d]|];
    [by eexists| |by eexists].
  change (lowest_free_fd (record_log _ w)) with (lowest_free_fd w).
  destruct (lowest_free_fd w) as [fd|]; [|by eexists].
  destruct (Hno fd d). done.
Qed.

(** A character device without the sound-event class leaves the
    instance as it was, but the descriptor [open_checked_device] got
    from the validator stays open: it is neither closed nor stored. *)
Lemma detect_no_sound_class
    (drv : beep_driver) (cd : option string) (w : world) (fd : Z) (d : device) :
  opens_as w (default default_name cd) fd d →
  dev_ev_snd d = false →
  ∃ w', driver_detect drv cd w = Returns (false, drv) w'
    ∧ w_fds w !! fd = None
    ∧ w_fds w' !! fd = Some d
    ∧ closes_of (w_trace w') = closes_of (w_trace w).
Proof.
  intros [Hfs Hfree] Hsnd. rewrite driver_detect_run. cbv zeta.
  rewrite open_checked_device_run. cbn [w_fs record_log]. rewrite Hfs.
  change (lowest_free_fd (record_log _ w)) with (lowest_free_fd w).
  rewrite Hfree. cbv zeta. rewrite Hsnd, decide_False by lia.
  apply lowest_free_fd_Some in Hfree as [_ Hnone].
  eexists. split; [reflexivity|]. split; [done|].
  cbn [w_fds w_trace record_log record_call with_fds].
  rewrite lookup_insert_eq, !closes_of_app. cbn. rewrite !app_nil_r. done.
Qed.

(** C5 fails on the code.  On /dev/null, a character device that does
    not implement the sound-event class, [driver_detect] returns [false]
    and leaves the instance untouched, yet descriptor 3, which was not
    open before the call, is open after it and no [close] was made. *)
Theorem failed_sound_class_check_leaks_descriptor :
  ∃ w', driver_detect driver_data (Some "/dev/null") sample_world
          = Returns (false, driver_data) w'
    ∧ w_fds sample_world !! 3 = None
    ∧ w_fds w' !! 3 = Some null_dev
    ∧ closes_of (w_trace w') = [].
Proof.
  eexists. split; [vm_compute; reflexivity|].
  repeat split; vm_compute; reflexivity.
Qed.

(** C8.  [driver_fini] closes the descriptor held by the instance and
    sets the field to -1; afterwards that descriptor is not open.  This
    also holds after a [driver_detect] that opened the device and then
    failed in the probe: the descriptor it opened is closed and the
    descriptor table is back to what it was before detection. *)
Theorem fini_releases_handle (drv : beep_driver) (w : world) :
  (∃ w', driver_fini drv w = Returns (set_device_fd (-1) drv) w'
     ∧ device_fd (set_device_fd (-1) drv) = -1
     ∧ closes_of (w_trace w') = closes_of (w_trace w) ++ [device_fd drv]
     ∧ w_fds w' = delete (device_fd drv) (w_fds w)
     ∧ w_fds w' !! device_fd drv = None)
  ∧ (∀ (cd : option string) (fd : Z) (d : device) (drv1 : beep_driver) (w1 : world),
       opens_as w (default default_name cd) fd d →
       dev_ev_snd d = true →
       driver_detect drv cd w = Returns (false, drv1) w1 →
       ∃ drv2 w2, driver_fini drv1 w1 = Returns drv2 w2
         ∧ device_fd drv2 = -1
         ∧ w_fds w1 !! fd = Some d
         ∧ w_fds w2 !! fd = None
         ∧ w_fds w2 = w_fds w).
Proof.
  split.
  - rewrite driver_fini_run. cbv zeta. eexists. split; [reflexivity|].
    cbn [w_fds w_trace record_log record_call with_fds].
    rewrite closes_of_app, lookup_delete_eq. done.
  - intros cd fd d drv1 w1 Hopen Hsnd.
    pose proof (validated_fd_free _ _ _ _ Hopen) as Hnone.
    detect_on_validated Hopen Hsnd.
    intros Hrun.
    assert (Hdrv1 : device_fd drv1 = fd ∧ w_fds w1 = <[fd := d]> (w_fds w)).
    { destruct (dev_snd_bits d) as [m|]; [|by simplify_eq].
      destruct (Z.testbit m SND_TONE); [by simplify_eq|].
      destruct (Z.testbit m SND_BELL); by simplify_eq. }
    destruct Hdrv1 as [Hfd1 Hfds1].
    rewrite driver_fini_run. cbv zeta. eexists _, _. split; [reflexivity|].
    cbn [device_fd set_device_fd w_fds record_log record_call with_fds].
    rewrite Hfd1, Hfds1, lookup_insert_eq, lookup_delete_eq.
    rewrite delete_insert_id by done. done.
Qed.

Lemma fini_releases_handle_witness :
  ∃ drv2 w2,
    driver_fini (set_device_name "/dev/input/event9" (set_device_fd 3 driver_data))
      (final_world (driver_detect driver_data (Some "/dev/input/event9") sample_world))
    = Returns drv2 w2
    ∧ device_fd drv2 = -1
    ∧ w_fds (final_world (driver_detect driver_data (Some "/dev/input/event9")
                            sample_world)) !! 3 = Some no_evbit
    ∧ w_fds w2 !! 3 = None
    ∧ w_fds w2 = w_fds sample_world.
Proof.
  destruct (fini_releases_handle driver_data sample_world) as [_ Hafter].
  apply (Hafter (Some "/dev/input/event9") 3 no_evbit).
  - split; vm_compute; reflexivity.
  - reflexivity.
  - vm_compute. reflexivity.
Defined.

(** C9.  [driver_fini] is unconditional.  Whatever the instance holds,
    it calls [close] on the current value of the descriptor field, open
    or not, and then stores -1.  For the statically initialised
    instance, whose field is 0 and not -1, the call is [close(0)]. *)
Theorem fini_is_unconditional (drv : beep_driver) (w : world) :
  (∃ ret, driver_fini drv w =
     Returns (set_device_fd (-1) drv)
       (record_call (SysClose (device_fd drv) ret)
          (with_fds (delete (device_fd drv) (w_fds w))
             (record_log "driver_fini %p" w))))
  ∧ device_fd driver_data = 0
  ∧ closes_of (w_trace (final_world (driver_fini driver_data w)))
    = closes_of (w_trace w) ++ [0].
Proof.
  split; [|split].
  - rewrite driver_fini_run. cbv zeta. eexists. reflexivity.
  - reflexivity.
  - rewrite driver_fini_run. cbv zeta.
    cbn [final_world w_trace record_call]. rewrite closes_of_app. reflexivity.
Qed.

(** * Further properties of the driver *)

(** Splits [driver_detect drv cd w] in the goal into its seven runs: the
    path is a regular file, the descriptors are used up, the path does
    not exist, the sound class is missing, the bitmask query fails, and
    the three answers the bitmask can give. *)
Ltac detect_split drv cd w :=
  rewrite (driver_detect_run drv cd w); cbv zeta;
  rewrite open_checked_device_run; cbn [w_fs record_log];
  change (lowest_free_fd (record_log _ w)) with (lowest_free_fd w);
  let d := fresh "d" in
  let fd := fresh "fd" in
  let m := fresh "m" in
  destruct (w_fs w !! default default_name cd) as [[|d]|] eqn:Hfs;
  [ rewrite decide_False by lia
  | destruct (lowest_free_fd w) as [fd|] eqn:Hfree;
    [ pose proof (lowest_free_fd_Some _ _ Hfree) as [Hfd Hnone]; cbv zeta;
      destruct (dev_ev_snd d) eqn:Hsnd;
      [ rewrite decide_True by lia;
        unfold probe_mask; cbn [w_fds record_call with_fds];
        rewrite lookup_insert_eq; cbn [mbind option_bind];
        destruct (dev_snd_bits d) as [m|] eqn:Hbits;
        [ destruct (Z.testbit m SND_TONE) eqn:Htone;
          [| destruct (Z.testbit m SND_BELL) eqn:Hbell] | ]
      | rewrite decide_False by lia ]
    | rewrite decide_False by lia ]
  | rewrite decide_False by lia ].

(** ** Detection *)

(** X1.  [driver_detect] always returns to its caller, and whatever it
    answers it has made no [write] and no [close] and has left the
    script of the coming writes and the file system alone: probing a
    device never sounds it. *)
Theorem detect_is_silent (drv : beep_driver) (cd : option string) (w : world) :
  ∃ b drv' w', driver_detect drv cd w = Returns (b, drv') w'
    ∧ writes_of (w_trace w') = writes_of (w_trace w)
    ∧ closes_of (w_trace w') = closes_of (w_trace w)
    ∧ w_wr w' = w_wr w
    ∧ w_fs w' = w_fs w.
Proof.
  detect_split drv cd w;
    (eexists _, _, _; split; [reflexivity|];
     cbn [w_trace w_wr w_fs record_log record_call with_fds];
     rewrite ?writes_of_app, ?closes_of_app; cbn; rewrite ?app_nil_r; done).
Qed.

(** X2.  [driver_detect] answers [true] exactly when the path it tries
    names a character device that can be opened, implements the
    sound-event class and reports a bitmask with the tone bit or the
    bell bit. *)
Theorem detect_succeeds_iff (drv : beep_driver) (cd : option string) (w : world) :
  (∃ drv' w', driver_detect drv cd w = Returns (true, drv') w')
  ↔ (∃ fd d m, opens_as w (default default_name cd) fd d
       ∧ dev_ev_snd d = true
       ∧ dev_snd_bits d = Some m
       ∧ (Z.testbit m SND_TONE = true ∨ Z.testbit m SND_BELL = true)).
Proof.
  split.
  - intros (drv' & w' & Hrun). revert Hrun.
    detect_split drv cd w; intros Hrun; try discriminate Hrun;
      exists fd, d, m; unfold opens_as; auto.
  - intros (fd & d & m & Hopen & Hsnd & Hbits & Hbit).
    detect_on_validated Hopen Hsnd. rewrite Hbits.
    destruct (Z.testbit m SND_TONE); [by eexists _, _|].
    destruct Hbit as [Hbit|Hbit]; [discriminate Hbit|].
    rewrite Hbit. by eexists _, _.
Qed.

(** X3.  After a [driver_detect] that answered [true], the instance
    holds a non-negative descriptor that was not open before the call
    and is open now, on a device that implements the sound-event class;
    it holds the path that was tried and one of the two protocols; its
    name is unchanged. *)
Theorem detected_instance
    (drv : beep_driver) (cd : option string) (w : world)
    (drv' : beep_driver) (w' : world) :
  driver_detect drv cd w = Returns (true, drv') w' →
  0 ≤ device_fd drv'
  ∧ w_fds w !! device_fd drv' = None
  ∧ (∃ d, w_fds w' !! device_fd drv' = Some d ∧ dev_ev_snd d = true)
  ∧ device_name drv' = Some (default default_name cd)
  ∧ is_Some (snd_api_of_Z (device_flags drv'))
  ∧ name drv' = name drv.
Proof.
  revert drv' w'.
  detect_split drv cd w; intros drv' w' Hrun; try discriminate Hrun;
    injection Hrun as <- <-;
    cbn [device_fd device_name device_flags name set_device_flags
         set_device_name set_device_fd w_fds record_log record_call with_fds];
    rewrite lookup_insert_eq;
    (split; [lia|]; split; [done|]; split; [by exists d|]);
    repeat split; by eexists.
Qed.

Lemma detected_instance_witness :
  0 ≤ 3 ∧ w_fds sample_world !! 3 = None.
Proof.
  destruct (detected_instance driver_data (Some "/dev/input/event7") sample_world
              (set_device_flags 1
                 (set_device_name "/dev/input/event7" (set_device_fd 3 driver_data)))
              (final_world (driver_detect driver_data (Some "/dev/input/event7")
                              sample_world)))
    as (Hfd & Hfree & _); [vm_compute; reflexivity|].
  split; [exact Hfd | exact Hfree].
Defined.

(** X4.  A [driver_detect] that answered [false] has not touched the
    protocol field nor the name of the instance.  Either the instance
    is unchanged, or it now holds the path that was tried and a
    descriptor that was not open before the call and is still open. *)
Theorem failed_detect_keeps_protocol
    (drv : beep_driver) (cd : option string) (w : world)
    (drv' : beep_driver) (w' : world) :
  driver_detect drv cd w = Returns (false, drv') w' →
  device_flags drv' = device_flags drv
  ∧ name drv' = name drv
  ∧ (drv' = drv
     ∨ (w_fds w !! device_fd drv' = None
        ∧ is_Some (w_fds w' !! device_fd drv')
        ∧ device_name drv' = Some (default default_name cd))).
Proof.
  revert drv' w'.
  detect_split drv cd w; intros drv' w' Hrun; try discriminate Hrun;
    injection Hrun as <- <-; (split; [done|]; split; [done|]);
    try (by left);
    right;
    cbn [device_fd device_name set_device_name set_device_fd
         w_fds record_log record_call with_fds];
    rewrite lookup_insert_eq; by eauto.
Qed.

Lemma failed_detect_keeps_protocol_witness :
  device_flags (set_device_name "/dev/input/event8" (set_device_fd 3 driver_data))
  = device_flags driver_data.
Proof.
  destruct (failed_detect_keeps_protocol driver_data (Some "/dev/input/event8")
              sample_world
              (set_device_name "/dev/input/event8" (set_device_fd 3 driver_data))
              (final_world (driver_detect driver_data (Some "/dev/input/event8")
                              sample_world)))
    as (Hflags & _); [vm_compute; reflexivity | exact Hflags].
Defined.

(** X5.  When the device that was opened advertises the bell bit but
    not the tone bit, [driver_detect] answers [true] and stores the bell
    protocol together with the descriptor; a [driver_begin_tone] on the
    instance it leaves then writes, for every frequency, one record with
    the bell code and value 1 to that descriptor. *)
Theorem bell_is_the_fallback
    (drv : beep_driver) (cd : option string) (w : world)
    (fd : Z) (d : device) (m : Z) (f : Z) :
  opens_as w (default default_name cd) fd d →
  dev_ev_snd d = true →
  dev_snd_bits d = Some m →
  Z.testbit m SND_TONE = false →
  Z.testbit m SND_BELL = true →
  ∃ drv' w', driver_detect drv cd w = Returns (true, drv') w'
    ∧ device_flags drv' = snd_api_to_Z SND_API_BELL
    ∧ device_fd drv' = fd
    ∧ ∃ e, writes_of (w_trace (final_world (driver_begin_tone drv' f w')))
             = writes_of (w_trace w) ++ [(fd, e, sizeof_input_event)]
           ∧ code e = SND_BELL ∧ value e = 1.
Proof.
  intros Hopen Hsnd Hbits Htone Hbell.
  detect_on_validated Hopen Hsnd. rewrite Hbits, Htone, Hbell.
  eexists _, _. split; [reflexivity|]. split; [reflexivity|].
  split; [reflexivity|].
  rewrite driver_begin_tone_run. unfold emitter_finish, after_write.
  cbn [device_flags device_fd set_device_flags set_device_name set_device_fd
       snd_api_to_Z to_uintptr].
  eexists. split.
  - case_bool_decide;
    cbn [final_world w_trace record_call record_log with_wr with_fds];
    rewrite !writes_of_app; cbn; rewrite !app_nil_r; reflexivity.
  - split; reflexivity.
Qed.

Lemma bell_is_the_fallback_witness :
  ∃ drv' w',
    driver_detect driver_data (Some "/dev/input/event7") sample_world
      = Returns (true, drv') w'
    ∧ device_flags drv' = snd_api_to_Z SND_API_BELL
    ∧ device_fd drv' = 3
    ∧ ∃ e, writes_of (w_trace (final_world (driver_begin_tone drv' 440 w')))
             = writes_of (w_trace sample_world) ++ [(3, e, sizeof_input_event)]
           ∧ code e = SND_BELL ∧ value e = 1.
Proof.
  apply (bell_is_the_fallback driver_data (Some "/dev/input/event7")
           sample_world 3 bell_only 2 440);
    [split; vm_compute; reflexivity | reflexivity ..].
Defined.

(** ** Emission *)

(** X6.  However they end, [driver_begin_tone] and [driver_end_tone]
    make exactly one [write], of one record of the fixed size to the
    descriptor of the instance; they leave the descriptor table and the
    file system as they were, open and close nothing, and use up one
    entry of the write script. *)
Theorem emitters_keep_descriptors (drv : beep_driver) (w : world) (f : Z) :
  (let w' := final_world (driver_begin_tone drv f w) in
   (∃ e, writes_of (w_trace w')
         = writes_of (w_trace w) ++ [(device_fd drv, e, sizeof_input_event)])
   ∧ w_fds w' = w_fds w ∧ w_fs w' = w_fs w ∧ w_wr w' = tail (w_wr w)
   ∧ opened_paths (w_trace w') = opened_paths (w_trace w)
   ∧ closes_of (w_trace w') = closes_of (w_trace w))
  ∧ (let w' := final_world (driver_end_tone drv w) in
     (∃ e, writes_of (w_trace w')
           = writes_of (w_trace w) ++ [(device_fd drv, e, sizeof_input_event)])
     ∧ w_fds w' = w_fds w ∧ w_fs w' = w_fs w ∧ w_wr w' = tail (w_wr w)
     ∧ opened_paths (w_trace w') = opened_paths (w_trace w)
     ∧ closes_of (w_trace w') = closes_of (w_trace w)).
Proof.
  split; cbv zeta.
  - rewrite driver_begin_tone_run. unfold emitter_finish, after_write.
    split; [eexists; emitted_writes|].
    case_bool_decide;
      cbn [final_world w_fds w_fs w_wr w_trace record_call record_log with_wr];
      rewrite ?opened_paths_app, ?closes_of_app; cbn; rewrite ?app_nil_r; done.
  - rewrite driver_end_tone_run. unfold emitter_finish, after_write.
    split; [eexists; emitted_writes|].
    case_bool_decide;
      cbn [final_world w_fds w_fs w_wr w_trace record_call record_log with_wr];
      rewrite ?opened_paths_app, ?closes_of_app; cbn; rewrite ?app_nil_r; done.
Qed.

(** X7.  Whatever the instance holds and whatever integer is passed for
    the frequency, the record [driver_begin_tone] writes has a value
    between 0 and 65535 and one of the codes 0, [SND_BELL], [SND_TONE];
    under the tone protocol the value is the frequency modulo 65536. *)
Theorem begin_tone_value_bounds (drv : beep_driver) (w : world) (f : Z) :
  ∃ e, writes_of (w_trace (final_world (driver_begin_tone drv f w)))
         = writes_of (w_trace w) ++ [(device_fd drv, e, sizeof_input_event)]
    ∧ 0 ≤ value e ≤ 65535
    ∧ (code e = 0 ∨ code e = SND_BELL ∨ code e = SND_TONE)
    ∧ (device_flags drv = snd_api_to_Z SND_API_TONE → value e = f mod 65536).
Proof.
  rewrite driver_begin_tone_run. unfold emitter_finish, after_write.
  assert (Hwrap : to_int32 (to_uint16 f) = f mod 65536 ∧ 0 ≤ f mod 65536 ≤ 65535).
  { unfold to_uint16. change (2 ^ 16) with 65536.
    pose proof (Z.mod_pos_bound f 65536). split; [apply to_int32_id|]; lia. }
  destruct Hwrap as [Hwrap Hrange].
  destruct (snd_api_of_Z (device_flags drv)) as [[|]|] eqn:Hapi;
    (eexists; split; [emitted_writes|]; cbn [value code]).
  - rewrite Hwrap. unfold SND_TONE. auto with lia.
  - unfold SND_BELL. repeat split; [lia | lia | auto |].
    intros Htone. rewrite Htone in Hapi. discriminate Hapi.
  - repeat split; [lia | lia | auto |].
    intros Htone. rewrite Htone in Hapi. discriminate Hapi.
Qed.

Lemma begin_tone_value_bounds_witness :
  ∃ e, writes_of (w_trace (final_world
         (driver_begin_tone (set_device_fd 1 driver_data) 66000 sample_world)))
       = [(1, e, 24)] ∧ value e = 464.
Proof.
  destruct (begin_tone_value_bounds (set_device_fd 1 driver_data) sample_world 66000)
    as (e & Hw & _ & _ & Hval).
  exists e. split; [exact Hw | apply Hval; reflexivity].
Defined.

(** The enum cast drops the bits above the low 32. *)
Lemma snd_api_of_Z_low_bits (z k : Z) :
  snd_api_of_Z (z + k * 2 ^ 32) = snd_api_of_Z z.
Proof. unfold snd_api_of_Z, to_uint32. by rewrite Z.mod_add. Qed.

(** X8.  The [switch] of the emitters has no default.  On an instance
    whose protocol field, cut to the 32 bits of the enumeration, is
    neither of the two enumerators, both emitters still write their
    record, with type [EV_SND], code 0 and value 0. *)
Theorem unknown_protocol_record (drv : beep_driver) (w : world) (f : Z) :
  to_uint32 (device_flags drv) ≠ snd_api_to_Z SND_API_TONE →
  to_uint32 (device_flags drv) ≠ snd_api_to_Z SND_API_BELL →
  writes_of (w_trace (final_world (driver_begin_tone drv f w)))
    = writes_of (w_trace w)
      ++ [(device_fd drv, mk_input_event 0 0 EV_SND 0 0, sizeof_input_event)]
  ∧ writes_of (w_trace (final_world (driver_end_tone drv w)))
    = writes_of (w_trace w)
      ++ [(device_fd drv, mk_input_event 0 0 EV_SND 0 0, sizeof_input_event)].
Proof.
  cbn [snd_api_to_Z]. intros H0 H1.
  rewrite driver_begin_tone_run, driver_end_tone_run.
  unfold emitter_finish, after_write, snd_api_of_Z. cbv zeta.
  rewrite !decide_False by done.
  split; emitted_writes.
Qed.

Lemma unknown_protocol_record_witness :
  writes_of (w_trace (final_world
    (driver_end_tone (set_device_flags 7 (set_device_fd 1 driver_data)) sample_world)))
  = [(1, mk_input_event 0 0 EV_SND 0 0, 24)].
Proof.
  destruct (unknown_protocol_record
              (set_device_flags 7 (set_device_fd 1 driver_data)) sample_world 0)
    as [_ Hend]; [discriminate | discriminate | exact Hend].
Defined.

(** X9.  [driver_begin_tone] followed by [driver_end_tone] on the same
    instance.  If the first [write] takes the whole record, two records
    go to the descriptor, the second with the code of the first and
    value 0.  If it does not, the process ends after the first record
    and the silencing record is never written. *)
Theorem begin_then_end (drv : beep_driver) (w : world) (f : Z) :
  let fd := device_fd drv in
  let run := (driver_begin_tone drv f;; driver_end_tone drv) w in
  ∃ e1 e2, code e2 = code e1 ∧ value e2 = 0 ∧
    if decide (write_result fd sizeof_input_event w = sizeof_input_event)
    then writes_of (w_trace (final_world run))
         = writes_of (w_trace w)
           ++ [(fd, e1, sizeof_input_event); (fd, e2, sizeof_input_event)]
    else (∃ w', run = Exits w')
         ∧ writes_of (w_trace (final_world run))
           = writes_of (w_trace w) ++ [(fd, e1, sizeof_input_event)].
Proof.
  cbv zeta. unfold mbind, M_bind.
  rewrite driver_begin_tone_run. unfold emitter_finish.
  destruct (decide (write_result (device_fd drv) sizeof_input_event w
                    = sizeof_input_event)) as [Hr|Hr];
    [ rewrite bool_decide_eq_true_2 by done;
      rewrite driver_end_tone_run; unfold emitter_finish
    | rewrite bool_decide_eq_false_2 by done ];
    unfold after_write;
    (destruct (snd_api_of_Z (device_flags drv)) as [[|]|];
     [ exists (mk_input_event 0 0 EV_SND SND_TONE (to_int32 (to_uint16 f))),
         (mk_input_event 0 0 EV_SND SND_TONE 0)
     | exists (mk_input_event 0 0 EV_SND SND_BELL 1),
         (mk_input_event 0 0 EV_SND SND_BELL 0)
     | exists (mk_input_event 0 0 EV_SND 0 0), (mk_input_event 0 0 EV_SND 0 0) ]);
    (split; [reflexivity|]; split; [reflexivity|]);
    try case_bool_decide; try (split; [by eexists|]);
    cbn [final_world w_trace record_call record_log with_wr];
    rewrite !writes_of_app; cbn; rewrite ?app_nil_r, <- ?app_assoc;
    reflexivity.
Qed.

(** ** Release *)

(** A descriptor that is not open stays so when another one is closed. *)
Lemma closed_after_delete (fds : gmap Z device) (fd k : Z) :
  fds !! k = None → delete fd fds !! k = None.
Proof. intros Hk. apply lookup_delete_None. by right. Qed.

(** X10.  Emitting on a released instance is fatal.  After
    [driver_fini] the instance holds -1; the [write] of either emitter
    then fails and the process ends. *)
Theorem emit_after_fini_exits (drv : beep_driver) (w : world) (f : Z) :
  w_fds w !! (-1) = None →
  ∃ drv' w', driver_fini drv w = Returns drv' w'
    ∧ (∃ w'', driver_begin_tone drv' f w' = Exits w'')
    ∧ (∃ w'', driver_end_tone drv' w' = Exits w'').
Proof.
  intros Hclosed. rewrite driver_fini_run. cbv zeta.
  eexists _, _. split; [reflexivity|].
  rewrite driver_begin_tone_run, driver_end_tone_run.
  unfold emitter_finish, write_result.
  cbn [device_fd set_device_fd w_fds record_call record_log with_fds].
  rewrite (closed_after_delete _ _ _ Hclosed).
  rewrite bool_decide_eq_false_2 by discriminate.
  split; by eexists.
Qed.

Lemma emit_after_fini_exits_witness :
  ∃ drv' w', driver_fini (set_device_fd 1 driver_data) sample_world = Returns drv' w'
    ∧ (∃ w'', driver_begin_tone drv' 440 w' = Exits w'')
    ∧ (∃ w'', driver_end_tone drv' w' = Exits w'').
Proof.
  apply (emit_after_fini_exits (set_device_fd 1 driver_data) sample_world 440).
  vm_compute. reflexivity.
Defined.

(** X11.  A second [driver_fini] is harmless: it calls [close(-1)],
    which fails, and leaves the instance and the descriptor table as
    the first one left them. *)
Theorem second_fini_is_harmless (drv : beep_driver) (w : world) :
  w_fds w !! (-1) = None →
  ∃ drv1 w1 w2, driver_fini drv w = Returns drv1 w1
    ∧ driver_fini drv1 w1 = Returns drv1 w2
    ∧ w_fds w2 = w_fds w1
    ∧ w_trace w2 = w_trace w1 ++ [SysClose (-1) (-1)].
Proof.
  intros Hclosed. rewrite driver_fini_run. cbv zeta.
  eexists _, _, _. split; [reflexivity|].
  rewrite driver_fini_run. cbv zeta.
  cbn [device_fd set_device_fd w_fds record_call record_log with_fds].
  pose proof (closed_after_delete _ (device_fd drv) _ Hclosed) as Hgone.
  rewrite decide_False by (rewrite Hgone; by intros [? ?]).
  split; [reflexivity|].
  cbn [w_fds w_trace record_call record_log with_fds].
  split; [by apply delete_id | reflexivity].
Qed.

Lemma second_fini_is_harmless_witness :
  ∃ drv1 w1 w2, driver_fini (set_device_fd 1 driver_data) sample_world = Returns drv1 w1
    ∧ driver_fini drv1 w1 = Returns drv1 w2
    ∧ w_fds w2 = w_fds w1
    ∧ w_trace w2 = w_trace w1 ++ [SysClose (-1) (-1)].
Proof.
  apply (second_fini_is_harmless (set_device_fd 1 driver_data) sample_world).
  vm_compute. reflexivity.
Defined.

(** ** Detection and release together *)

(** [driver_detect] closes nothing: a descriptor open before the call
    is open after it, on the same device. *)
Lemma detect_keeps_open
    (drv : beep_driver) (cd : option string) (w : world)
    (b : bool) (drv' : beep_driver) (w' : world) (k : Z) (x : device) :
  driver_detect drv cd w = Returns (b, drv') w' →
  w_fds w !! k = Some x → w_fds w' !! k = Some x.
Proof.
  revert b drv' w'.
  detect_split drv cd w; intros b drv' w' Hrun Hk;
    injection Hrun as <- <- <-;
    cbn [w_fds record_log record_call with_fds]; try done;
    (rewrite lookup_insert_ne; [done | congruence]).
Qed.

(** A successful [driver_detect] stores a descriptor that it opened. *)
Lemma detect_true_fresh
    (drv : beep_driver) (cd : option string) (w : world)
    (drv' : beep_driver) (w' : world) :
  driver_detect drv cd w = Returns (true, drv') w' →
  w_fds w !! device_fd drv' = None ∧ is_Some (w_fds w' !! device_fd drv').
Proof.
  revert drv' w'.
  detect_split drv cd w; intros drv' w' Hrun; try discriminate Hrun;
    injection Hrun as <- <-;
    cbn [device_fd set_device_flags set_device_name set_device_fd
         w_fds record_log record_call with_fds];
    rewrite lookup_insert_eq; by eauto.
Qed.

(** X12.  [driver_detect] does not release what the instance already
    holds.  When it succeeds twice on one instance, the second run
    stores a different descriptor, and the first one stays open: it is
    open after the second run and still open after [driver_fini]. *)
Theorem second_detect_strands_descriptor
    (drv : beep_driver) (cd cd' : option string) (w : world)
    (drv1 drv2 : beep_driver) (w1 w2 : world) :
  driver_detect drv cd w = Returns (true, drv1) w1 →
  driver_detect drv1 cd' w1 = Returns (true, drv2) w2 →
  device_fd drv2 ≠ device_fd drv1
  ∧ is_Some (w_fds w2 !! device_fd drv1)
  ∧ ∃ drv3 w3, driver_fini drv2 w2 = Returns drv3 w3
      ∧ device_fd drv3 = -1
      ∧ is_Some (w_fds w3 !! device_fd drv1).
Proof.
  intros Hfirst Hsecond.
  destruct (detect_true_fresh _ _ _ _ _ Hfirst) as [_ [x Hopen1]].
  destruct (detect_true_fresh _ _ _ _ _ Hsecond) as [Hfree2 _].
  pose proof (detect_keeps_open _ _ _ _ _ _ _ _ Hsecond Hopen1) as Hopen2.
  assert (Hne : device_fd drv2 ≠ device_fd drv1) by congruence.
  split; [done|]. split; [by eexists|].
  rewrite driver_fini_run. cbv zeta. eexists _, _. split; [reflexivity|].
  split; [reflexivity|].
  cbn [w_fds record_log record_call with_fds].
  rewrite lookup_delete_ne by done. by eexists.
Qed.

Lemma second_detect_strands_descriptor_witness :
  4 ≠ 3
  ∧ is_Some (w_fds (final_world
       (driver_detect
          (set_device_flags 0 (set_device_name default_name (set_device_fd 3 driver_data)))
          (Some "/dev/input/event7")
          (final_world (driver_detect driver_data None sample_world)))) !! 3).
Proof.
  destruct (second_detect_strands_descriptor driver_data None (Some "/dev/input/event7")
              sample_world
              (set_device_flags 0
                 (set_device_name default_name (set_device_fd 3 driver_data)))
              (set_device_flags 1
                 (set_device_name "/dev/input/event7"
                    (set_device_fd 4
                       (set_device_flags 0
                          (set_device_name default_name
                             (set_device_fd 3 driver_data))))))
              (final_world (driver_detect driver_data None sample_world))
              (final_world
                 (driver_detect
                    (set_device_flags 0
                       (set_device_name default_name (set_device_fd 3 driver_data)))
                    (Some "/dev/input/event7")
                    (final_world (driver_detect driver_data None sample_world)))))
    as (Hne & Hopen & _); [vm_compute; reflexivity | vm_compute; reflexivity |].
  split; [exact Hne | exact Hopen].
Defined.

(** X14.  The descriptor left open by a failed sound-class check is out
    of reach.  For every character device that opens but does not
    implement the sound-event class, [driver_detect] answers [false]
    with the instance unchanged, and a following [driver_fini], which
    closes what the instance held before, leaves that descriptor open. *)
Theorem unsupported_device_descriptor_survives
    (drv : beep_driver) (cd : option string) (w : world) (fd : Z) (d : device) :
  opens_as w (default default_name cd) fd d →
  dev_ev_snd d = false →
  device_fd drv ≠ fd →
  ∃ w1, driver_detect drv cd w = Returns (false, drv) w1
    ∧ ∃ drv2 w2, driver_fini drv w1 = Returns drv2 w2
        ∧ w_fds w !! fd = None
        ∧ w_fds w2 !! fd = Some d
        ∧ closes_of (w_trace w2) = closes_of (w_trace w) ++ [device_fd drv].
Proof.
  intros Hopen Hsnd Hne.
  destruct (detect_no_sound_class drv cd w fd d Hopen Hsnd)
    as (w1 & Hrun & Hnone & Hleft & Hcloses).
  exists w1. split; [done|].
  rewrite driver_fini_run. cbv zeta. eexists _, _. split; [reflexivity|].
  cbn [w_fds w_trace record_log record_call with_fds].
  rewrite lookup_delete_ne by done.
  rewrite closes_of_app, Hcloses. done.
Qed.

Lemma unsupported_device_descriptor_survives_witness :
  ∃ w1, driver_detect driver_data (Some "/dev/null") sample_world
          = Returns (false, driver_data) w1
    ∧ ∃ drv2 w2, driver_fini driver_data w1 = Returns drv2 w2
        ∧ w_fds sample_world !! 3 = None
        ∧ w_fds w2 !! 3 = Some null_dev
        ∧ closes_of (w_trace w2) = closes_of (w_trace sample_world) ++ [0].
Proof.
  apply (unsupported_device_descriptor_survives driver_data (Some "/dev/null")
           sample_world 3 null_dev).
  - split; vm_compute; reflexivity.
  - reflexivity.
  - discriminate.
Defined.

(** X15.  When the path that is tried does not open as a character
    device, [driver_detect] answers [false] after the one call of the
    validator: it issues no control call, changes neither the instance
    nor the descriptor table, and logs only its entry line. *)
Theorem unavailable_device_changes_nothing
    (drv : beep_driver) (cd : option string) (w : world) :
  (∀ fd d, ¬ opens_as w (default default_name cd) fd d) →
  ∃ w', driver_detect drv cd w = Returns (false, drv) w'
    ∧ w_fds w' = w_fds w
    ∧ w_trace w' = w_trace w ++ [SysOpenChecked (default default_name cd) (-1)]
    ∧ length (w_log w') = S (length (w_log w)).
Proof.
  intros Hno.
  detect_split drv cd w;
    try (by destruct (Hno fd d));
    (eexists; split; [reflexivity|]);
    cbn [w_fds w_trace w_log record_log record_call];
    rewrite length_app; cbn; (split_and!; [done | done | lia]).
Qed.

Lemma unavailable_device_changes_nothing_witness :
  ∃ w', driver_detect driver_data (Some "/etc/passwd") sample_world
          = Returns (false, driver_data) w'
    ∧ w_fds w' = w_fds sample_world
    ∧ w_trace w' = w_trace sample_world ++ [SysOpenChecked "/etc/passwd" (-1)]
    ∧ length (w_log w') = S (length (w_log sample_world)).
Proof.
  apply (unavailable_device_changes_nothing driver_data (Some "/etc/passwd")
           sample_world).
  intros fd d [Hfs _]. vm_compute in Hfs. discriminate Hfs.
Defined.

(** X16.  [open_checked_device] always returns, after exactly one call
    of the validator.  Its result is -1 or a non-negative descriptor;
    a non-negative result was not open before, is open now on the
    character device the path names, and that device implements the
    sound-event class. *)
Theorem open_checked_device_result (p : string) (w : world) :
  ∃ r w', open_checked_device p w = Returns r w'
    ∧ opened_paths (w_trace w') = opened_paths (w_trace w) ++ [p]
    ∧ (r = -1
       ∨ (0 ≤ r
          ∧ w_fds w !! r = None
          ∧ ∃ d, w_fs w !! p = Some (CharDevice d)
                 ∧ w_fds w' !! r = Some d
                 ∧ dev_ev_snd d = true)).
Proof.
  rewrite open_checked_device_run.
  destruct (w_fs w !! p) as [[|d]|] eqn:Hfs.
  - eexists _, _. split; [reflexivity|]. split; [|by left].
    cbn [w_trace record_call]. by rewrite opened_paths_app.
  - destruct (lowest_free_fd w) as [fd|] eqn:Hfree.
    + apply lowest_free_fd_Some in Hfree as [Hfd Hnone]. cbv zeta.
      destruct (dev_ev_snd d) eqn:Hsnd;
        (eexists _, _; split; [reflexivity|]; split;
         [ cbn [w_trace record_call record_log with_fds];
           rewrite !opened_paths_app; cbn; by rewrite !app_nil_r |]).
      * right. split; [lia|]. split; [done|]. exists d.
        cbn [w_fds record_call with_fds]. by rewrite lookup_insert_eq.
      * by left.
    + eexists _, _. split; [reflexivity|]. split; [|by left].
      cbn [w_trace record_call]. by rewrite opened_paths_app.
  - eexists _, _. split; [reflexivity|]. split; [|by left].
    cbn [w_trace record_call]. by rewrite opened_paths_app.
Qed.

(** ** A whole beep *)

Lemma accepts_records_nil (k : nat) : accepts_records k [] = true.
Proof. by destruct k. Qed.

(** With a willing script, a [write] of one record to an open
    descriptor takes it whole and leaves a script as willing for the
    writes that follow. *)
Lemma write_result_full (fd : Z) (w : world) (k : nat) :
  is_Some (w_fds w !! fd) →
  accepts_records (S k) (w_wr w) = true →
  write_result fd sizeof_input_event w = sizeof_input_event
  ∧ accepts_records k (tail (w_wr w)) = true.
Proof.
  intros [x Hx] Hacc. unfold write_result. rewrite Hx.
  destruct (w_wr w) as [|[n|] wr]; cbn [accepts_records tail] in *.
  - split; [done | apply accepts_records_nil].
  - apply andb_true_iff in Hacc as [Hn Hacc]. apply Z.leb_le in Hn.
    split; [lia | done].
  - discriminate Hacc.
Qed.

(** Settles the size test of an emitter whose [write] is known to take
    the whole record. *)
Lemma accepts_records_tail (k : nat) (wr : list (option nat)) :
  accepts_records (S k) wr = true → accepts_records k (tail wr) = true.
Proof.
  destruct wr as [|[n|] wr]; cbn [accepts_records tail].
  - intros _. apply accepts_records_nil.
  - intros Hacc. by apply andb_true_iff in Hacc as [_ Hacc].
  - discriminate.
Qed.

(** Settles the size test of an emitter whose [write] is known to take
    the whole record. *)
Ltac full_write Hacc k :=
  match goal with
  | |- context [emitter_finish ?drv ?w0 _] =>
      let Hfull := fresh "Hfull" in
      destruct (write_result_full (device_fd drv) w0 k) as [Hfull _];
      [ unfold after_write;
        cbn [device_fd set_device_flags set_device_name set_device_fd
             w_fds record_log record_call with_fds with_wr];
        rewrite lookup_insert_eq; by eexists
      | exact Hacc
      | unfold emitter_finish; rewrite (bool_decide_eq_true_2 _ Hfull) ]
  end.

(** X13.  One beep from start to end.  On a device that opens,
    implements the sound-event class and advertises the tone bit, with
    writes that go through, the sequence [driver_init], [driver_detect],
    [driver_begin_tone f], [driver_end_tone], [driver_fini] returns at
    every step.  It tries one path, writes the tone record for [f] and
    then the one for 0 to the descriptor it opened, closes that
    descriptor once, and leaves the descriptor table as it found it. *)
Theorem one_beep
    (drv : beep_driver) (cd : option string) (w : world)
    (fd : Z) (d : device) (m : Z) (f : Z) :
  opens_as w (default default_name cd) fd d →
  dev_ev_snd d = true →
  dev_snd_bits d = Some m →
  Z.testbit m SND_TONE = true →
  0 ≤ f ≤ 65535 →
  accepts_records 2 (w_wr w) = true →
  ∃ w0 drv1 w1 w2 w3 drv2 w4,
    driver_init drv w = Returns () w0
    ∧ driver_detect drv cd w0 = Returns (true, drv1) w1
    ∧ driver_begin_tone drv1 f w1 = Returns () w2
    ∧ driver_end_tone drv1 w2 = Returns () w3
    ∧ driver_fini drv1 w3 = Returns drv2 w4
    ∧ device_fd drv2 = -1
    ∧ w_fds w4 = w_fds w
    ∧ opened_paths (w_trace w4)
      = opened_paths (w_trace w) ++ [default default_name cd]
    ∧ writes_of (w_trace w4)
      = writes_of (w_trace w)
        ++ [(fd, mk_input_event 0 0 EV_SND SND_TONE f, sizeof_input_event);
            (fd, mk_input_event 0 0 EV_SND SND_TONE 0, sizeof_input_event)]
    ∧ closes_of (w_trace w4) = closes_of (w_trace w) ++ [fd].
Proof.
  intros Hopen Hsnd Hbits Htone Hf Hacc.
  pose proof (validated_fd_free _ _ _ _ Hopen) as Hnone.
  pose proof (accepts_records_tail _ _ Hacc) as Hacc1.
  eexists. eexists _, _, _, _, _, _.
  split; [reflexivity|].
  change (opens_as (record_log "driver_init %p" w) (default default_name cd) fd d)
    in Hopen.
  split. { detect_on_validated Hopen Hsnd. rewrite Hbits, Htone. reflexivity. }
  split.
  { rewrite driver_begin_tone_run. full_write Hacc 1%nat. reflexivity. }
  split.
  { rewrite driver_end_tone_run. full_write Hacc1 0%nat. reflexivity. }
  split; [apply driver_fini_run|].
  cbv zeta. unfold after_write.
  cbn [device_fd device_flags set_device_flags set_device_name set_device_fd
       snd_api_to_Z to_uintptr snd_api_of_Z
       w_fds w_trace record_log record_call with_fds with_wr].
  split; [done|].
  split; [by apply delete_insert_id|].
  rewrite !opened_paths_app, !writes_of_app, !closes_of_app.
  rewrite to_uint16_id, to_int32_id by lia.
  change (snd_api_of_Z (to_uintptr 0)) with (Some SND_API_TONE).
  cbn. rewrite ?app_nil_r, <- ?app_assoc. done.
Qed.

Lemma one_beep_witness :
  ∃ w0 drv1 w1 w2 w3 drv2 w4,
    driver_init driver_data sample_world = Returns () w0
    ∧ driver_detect driver_data None w0 = Returns (true, drv1) w1
    ∧ driver_begin_tone drv1 440 w1 = Returns () w2
    ∧ driver_end_tone drv1 w2 = Returns () w3
    ∧ driver_fini drv1 w3 = Returns drv2 w4
    ∧ device_fd drv2 = -1
    ∧ w_fds w4 = w_fds sample_world
    ∧ opened_paths (w_trace w4)
      = opened_paths (w_trace sample_world) ++ [default default_name None]
    ∧ writes_of (w_trace w4)
      = writes_of (w_trace sample_world)
        ++ [(3, mk_input_event 0 0 EV_SND SND_TONE 440, sizeof_input_event);
            (3, mk_input_event 0 0 EV_SND SND_TONE 0, sizeof_input_event)]
    ∧ closes_of (w_trace w4) = closes_of (w_trace sample_world) ++ [3].
Proof.
  apply (one_beep driver_data None sample_world 3 pcspkr 6 440);
    [split; vm_compute; reflexivity | reflexivity | reflexivity | reflexivity
    | lia | reflexivity].
Defined.
